(** * GitHub User Explorer: the search-and-cache interaction model

    A shallow embedding of [src/App.tsx] (the [App] component: its state
    variables, [searchUsers], [loadRepos], [clearSearch] and the effect on the
    debounced value) and of the [useDebounce] hook that [App] imports.

    React state is a record, one field per [useState] variable.  An [async]
    function is split at its [await]: the part before it runs when the function
    is called, the [try] continuation when the request resolves, the [catch]
    continuation when it rejects, and [finally] after either.  What a
    continuation captured when it was suspended ([start], [userLogin]) is kept in
    the list of requests in flight.  Network calls and the focus call are
    appended to a log of effects. *)

From Stdlib Require Import PrimFloat ZArith NArith Ascii String List Lia.
From stdpp Require Import gmap strings list.

Local Open Scope string_scope.

(** ** JavaScript strings *)

(** A string is a sequence of code units; the model covers the code units
    below 256. *)
Module JS.

(** The code units that [String.prototype.trim] strips (ECMAScript's
    WhiteSpace and LineTerminator): TAB, LF, VT, FF, CR, SP and NBSP. *)
Definition isWhiteSpace (c : ascii) : bool :=
  let n := nat_of_ascii c in
  (n =? 9)%nat || (n =? 10)%nat || (n =? 11)%nat || (n =? 12)%nat
  || (n =? 13)%nat || (n =? 32)%nat || (n =? 160)%nat.

Fixpoint trimStart (s : string) : string :=
  match s with
  | EmptyString => EmptyString
  | String c r => if isWhiteSpace c then trimStart r else s
  end.

Definition trimEnd (s : string) : string :=
  String.rev (trimStart (String.rev s)).

(** [s.trim()] *)
Definition trim (s : string) : string := trimEnd (trimStart s).

(** [!s] for a string [s]: only the empty string is falsy. *)
Definition isFalsy (s : string) : bool :=
  match s with EmptyString => true | String _ _ => false end.

(** Every code unit of [s] is white space ([s] may be empty). *)
Fixpoint allWhiteSpace (s : string) : bool :=
  match s with
  | EmptyString => true
  | String c r => isWhiteSpace c && allWhiteSpace r
  end.

(** The names every object literal inherits from [Object.prototype]; a
    lookup [o[k]] of such a name on an object without an own property [k]
    yields the inherited function or object, which is truthy. *)
Definition objectPrototypeKeys : list string :=
  [ "constructor"; "hasOwnProperty"; "isPrototypeOf"; "propertyIsEnumerable";
    "toLocaleString"; "toString"; "valueOf"; "__proto__";
    "__defineGetter__"; "__defineSetter__"; "__lookupGetter__";
    "__lookupSetter__" ].

End JS.

(** ** The debouncer ([useDebounce]) *)

Module Debounce.

Section Hook.

(** The hook works for any type of value. *)
Context {A : Type}.

(** What happens to the hook: the component is rendered again with a new
    input value, or [t] milliseconds pass (the timers due by then fire). *)
Inductive Input : Type :=
| Rerender (value : A)
| Advance (t : N).

(** [latest] is the input of the last render, [debounced] the hook's
    result, [timer] the time left on the pending timeout, if any. *)
Record Hook : Type := mkHook {
  latest : A;
  debounced : A;
  timer : option N
}.

(** Modelled from the spec: the source of [useDebounce]
    (src/hooks/useDebounce) is absent; section 4.1 says that the initial
    debounced value equals the initial input value, that on every new
    input value any pending emission is cancelled and a new delay of [d] ms
    starts, and that the debounced value becomes the latest input only when
    no further change arrives within [d] ms; a delay of zero emits on the
    next scheduling tick, not synchronously. *)
Definition useDebounce_init (value : A) : Hook :=
  {| latest := value; debounced := value; timer := None |}.

(** Modelled from the spec: see [useDebounce_init]. *)
Definition useDebounce_step (d : N) (h : Hook) (i : Input) : Hook :=
  match i with
  | Rerender v =>
      {| latest := v; debounced := debounced h; timer := Some d |}
  | Advance t =>
      match timer h with
      | None => h
      | Some r =>
          if (r <=? t)%N
          then {| latest := latest h; debounced := latest h; timer := None |}
          else {| latest := latest h; debounced := debounced h;
                  timer := Some (r - t)%N |}
      end
  end.

(** The hook after the inputs [ins], started in [h]. *)
Definition runHook (d : N) (ins : list Input) (h : Hook) : Hook :=
  fold_left (useDebounce_step d) ins h.

(** The hook after a timed sequence of inputs. *)
Definition useDebounce (d : N) (value : A) (ins : list Input) : Hook :=
  runHook d ins (useDebounce_init value).

(** The time for which the input that precedes [ins] stays the latest one:
    the time advanced before the next render (or the end of [ins]). *)
Fixpoint heldFor (ins : list Input) : N :=
  match ins with
  | Advance t :: r => (t + heldFor r)%N
  | _ => 0%N
  end.

(** The specification's words: the most recent input value that has remained
    unchanged for at least [d] ms ([dflt] when there is none so far). *)
Fixpoint stableValue (d : N) (dflt : A) (ins : list Input) : A :=
  match ins with
  | [] => dflt
  | Rerender v :: r =>
      stableValue d (if (d <=? heldFor r)%N then v else dflt) r
  | Advance _ :: r => stableValue d dflt r
  end.

(** The input values that stayed the latest for at least [d] ms. *)
Fixpoint stableInputs (d : N) (ins : list Input) : list A :=
  match ins with
  | [] => []
  | Rerender v :: r =>
      if (d <=? heldFor r)%N then v :: stableInputs d r
      else stableInputs d r
  | Advance _ :: r => stableInputs d r
  end.

(** The value of the last render in [ins]. *)
Fixpoint lastInput (dflt : A) (ins : list Input) : A :=
  match ins with
  | [] => dflt
  | Rerender v :: r => lastInput v r
  | Advance _ :: r => lastInput dflt r
  end.

(** What the pending timer of [h] will have emitted once [ins] is over, going
    by the time before the next render. *)
Definition expected (h : Hook) (ins : list Input) : A :=
  match timer h with
  | None => debounced h
  | Some r => if (r <=? heldFor ins)%N then latest h else debounced h
  end.

(** With a delay of zero a pending timer is always due, and without a pending
    timer the result is the latest input. *)
Definition settled0 (h : Hook) : Prop :=
  match timer h with
  | None => debounced h = latest h
  | Some r => r = 0%N
  end.

End Hook.

Arguments Input : clear implicits.
Arguments Hook : clear implicits.

End Debounce.

(** ** The application ([App.tsx]) *)

Module App.

(** [type User] and [type Repo]; the API sends [null] for a missing
    description. *)
Record User : Type := mkUser { login : string }.

Record Repo : Type := mkRepo {
  id : Z;
  name : string;
  description : option string;
  stargazers_count : Z;
  html_url : string
}.

(** [res.data] of a user search: either field may be absent. *)
Record SearchData : Type := mkSearchData {
  items : option (list User);
  total_count : option Z
}.

(** [performance.now()] is a double. *)
Definition time : Type := float.

(** The two requests of the component, and their URLs. *)
Inductive Request : Type :=
| SearchUsers (query : string)
| UserRepos (userLogin : string).

(** [baseUrl] of [lib/utils.ts], by [import.meta.env.DEV]. *)
Definition baseUrl (DEV : bool) : string :=
  if DEV then "/api" else "https://api.github.com".

Definition url (DEV : bool) (r : Request) : string :=
  match r with
  | SearchUsers query =>
      baseUrl DEV +:+ "/search/users?q=" +:+ query +:+ "&per_page=10"
  | UserRepos userLogin =>
      baseUrl DEV +:+ "/users/" +:+ userLogin +:+ "/repos"
  end.

Inductive Effect : Type :=
| HttpGet (r : Request)      (* axios.get(url r) *)
| FocusInput.                (* inputRef.current?.focus() *)

(** The state variables of [App] (lines 37-46), then the environment: the
    [start] captured by each suspended [searchUsers], the [userLogin]
    captured by each suspended [loadRepos], and the effects so far. *)
Record State : Type := mkState {
  username : string;
  users : list User;
  reposMap : gmap string (list Repo);
  totalCount : Z;
  searchTime : option time;
  loadingUser : bool;
  loadingRepos : option string;
  error : string;
  inflightSearch : list time;
  inflightRepos : list string;
  effects : list Effect
}.

Definition initialState : State :=
  {| username := ""; users := []; reposMap := ∅; totalCount := 0;
     searchTime := None; loadingUser := false; loadingRepos := None;
     error := ""; inflightSearch := []; inflightRepos := []; effects := [] |}.

(** *** State setters *)

Definition setUsername (v : string) (s : State) : State :=
  mkState v (users s) (reposMap s) (totalCount s) (searchTime s)
    (loadingUser s) (loadingRepos s) (error s)
    (inflightSearch s) (inflightRepos s) (effects s).

Definition setUsers (v : list User) (s : State) : State :=
  mkState (username s) v (reposMap s) (totalCount s) (searchTime s)
    (loadingUser s) (loadingRepos s) (error s)
    (inflightSearch s) (inflightRepos s) (effects s).

Definition setReposMap (v : gmap string (list Repo)) (s : State) : State :=
  mkState (username s) (users s) v (totalCount s) (searchTime s)
    (loadingUser s) (loadingRepos s) (error s)
    (inflightSearch s) (inflightRepos s) (effects s).

Definition setTotalCount (v : Z) (s : State) : State :=
  mkState (username s) (users s) (reposMap s) v (searchTime s)
    (loadingUser s) (loadingRepos s) (error s)
    (inflightSearch s) (inflightRepos s) (effects s).

Definition setSearchTime (v : option time) (s : State) : State :=
  mkState (username s) (users s) (reposMap s) (totalCount s) v
    (loadingUser s) (loadingRepos s) (error s)
    (inflightSearch s) (inflightRepos s) (effects s).

Definition setLoadingUser (v : bool) (s : State) : State :=
  mkState (username s) (users s) (reposMap s) (totalCount s) (searchTime s)
    v (loadingRepos s) (error s)
    (inflightSearch s) (inflightRepos s) (effects s).

Definition setLoadingRepos (v : option string) (s : State) : State :=
  mkState (username s) (users s) (reposMap s) (totalCount s) (searchTime s)
    (loadingUser s) v (error s)
    (inflightSearch s) (inflightRepos s) (effects s).

Definition setError (v : string) (s : State) : State :=
  mkState (username s) (users s) (reposMap s) (totalCount s) (searchTime s)
    (loadingUser s) (loadingRepos s) v
    (inflightSearch s) (inflightRepos s) (effects s).

(** *** The environment *)

Definition setInflightSearch (v : list time) (s : State) : State :=
  mkState (username s) (users s) (reposMap s) (totalCount s) (searchTime s)
    (loadingUser s) (loadingRepos s) (error s)
    v (inflightRepos s) (effects s).

Definition setInflightRepos (v : list string) (s : State) : State :=
  mkState (username s) (users s) (reposMap s) (totalCount s) (searchTime s)
    (loadingUser s) (loadingRepos s) (error s)
    (inflightSearch s) v (effects s).

(** Perform an effect: append it to the log. *)
Definition perform (e : Effect) (s : State) : State :=
  mkState (username s) (users s) (reposMap s) (totalCount s) (searchTime s)
    (loadingUser s) (loadingRepos s) (error s)
    (inflightSearch s) (inflightRepos s) (effects s ++ [e]).

(** Remove the first occurrence of [x] (a request that settles leaves the
    list of requests in flight). *)
Fixpoint removeFirst (x : string) (l : list string) : list string :=
  match l with
  | [] => []
  | y :: r => if decide (x = y) then r else y :: removeFirst x r
  end.

(** *** [searchUsers] (lines 48-66) *)

(** Lines 50-55: read the clock, then clear. *)
Definition searchUsers_prepare (s : State) : State :=
  setSearchTime None
    (setReposMap ∅ (setUsers [] (setError "" (setLoadingUser true s)))).

(** Line 57: issue the request and suspend; the continuation keeps [start]. *)
Definition searchUsers_await (query : string) (start : time) (s : State)
  : State :=
  setInflightSearch (inflightSearch s ++ [start])
    (perform (HttpGet (SearchUsers query)) s).

(** The call [searchUsers(query)] at clock reading [now], up to its
    [await]. *)
Definition searchUsers (query : string) (now : time) (s : State) : State :=
  if JS.isFalsy query then s
  else searchUsers_await query now (searchUsers_prepare s).

(** Lines 58-60: the request resolved with [res.data = data]; [now] is the
    clock reading of line 60. *)
Definition searchUsers_then (start : time) (data : SearchData) (now : time)
    (s : State) : State :=
  setSearchTime (Some (now - start)%float)
    (setTotalCount (default 0%Z (total_count data))
       (setUsers (default [] (items data)) s)).

(** Line 62. *)
Definition searchUsers_catch (s : State) : State :=
  setError "Failed to fetch users." s.

(** Line 64. *)
Definition searchUsers_finally (s : State) : State :=
  setLoadingUser false s.

Definition searchUsers_resolved (start : time) (data : SearchData)
    (now : time) (s : State) : State :=
  searchUsers_finally (searchUsers_then start data now s).

Definition searchUsers_rejected (s : State) : State :=
  searchUsers_finally (searchUsers_catch s).

(** *** [loadRepos] (lines 68-79) *)

(** Line 69, the condition [reposMap[userLogin]]: an own property holds an
    array, which is truthy also when it is empty; without an own property
    the lookup goes to [Object.prototype]. *)
Definition cached (m : gmap string (list Repo)) (userLogin : string) : bool :=
  match m !! userLogin with
  | Some _ => true
  | None => bool_decide (userLogin ∈ JS.objectPrototypeKeys)
  end.

(** The call [loadRepos(userLogin)], up to its [await]. *)
Definition loadRepos (userLogin : string) (s : State) : State :=
  if cached (reposMap s) userLogin then s
  else
    setInflightRepos (inflightRepos s ++ [userLogin])
      (perform (HttpGet (UserRepos userLogin))
         (setLoadingRepos (Some userLogin) s)).

(** Line 73: [setReposMap(prev => ({ ...prev, [userLogin]: res.data }))]. *)
Definition loadRepos_then (userLogin : string) (data : list Repo)
    (s : State) : State :=
  setReposMap (<[userLogin := data]> (reposMap s)) s.

(** Line 75. *)
Definition loadRepos_catch (s : State) : State :=
  setError "Failed to fetch repositories." s.

(** Line 77. *)
Definition loadRepos_finally (s : State) : State :=
  setLoadingRepos None s.

Definition loadRepos_resolved (userLogin : string) (data : list Repo)
    (s : State) : State :=
  loadRepos_finally (loadRepos_then userLogin data s).

Definition loadRepos_rejected (s : State) : State :=
  loadRepos_finally (loadRepos_catch s).

(** *** [clearSearch] (lines 81-87) and the effect (lines 89-95) *)

Definition clearSearch (s : State) : State :=
  perform FocusInput
    (setError "" (setReposMap ∅ (setUsers [] (setUsername "" s)))).

(** The effect that runs when [debouncedUsername] has become
    [debouncedUsername]. *)
Definition onDebouncedUsername (debouncedUsername : string) (now : time)
    (s : State) : State :=
  if JS.isFalsy (JS.trim debouncedUsername) then clearSearch s
  else searchUsers debouncedUsername now s.

(** Lines 135 and 177: the summary line with the search time is rendered
    when there are users and the search time is not [null]. *)
Definition summaryShown (s : State) : bool :=
  match users s, searchTime s with
  | _ :: _, Some _ => true
  | _, _ => false
  end.

(** *** Events *)

(** What can happen to the mounted component.  A click is possible only on
    an element that is rendered and enabled; a request settles only while it
    is in flight. *)
Inductive Event : Type :=
| Typed (value : string)                       (* Input onChange *)
| ClickSearch (now : time)                     (* the Search button *)
| ClickClear                                   (* the clear button *)
| DebouncedChanged (value : string) (now : time)
| SearchResolved (i : nat) (data : SearchData) (now : time)
| SearchRejected (i : nat)
| ClickUser (userLogin : string)               (* AccordionItem onClick *)
| ReposResolved (userLogin : string) (data : list Repo)
| ReposRejected (userLogin : string).

Definition step (e : Event) (s : State) : option State :=
  match e with
  | Typed value => Some (setUsername value s)
  | ClickSearch now =>
      (* disabled={!username.trim()} *)
      if JS.isFalsy (JS.trim (username s)) then None
      else Some (searchUsers (username s) now s)
  | ClickClear =>
      (* {username && <button onClick={clearSearch}>} *)
      if JS.isFalsy (username s) then None else Some (clearSearch s)
  | DebouncedChanged value now => Some (onDebouncedUsername value now s)
  | SearchResolved i data now =>
      match inflightSearch s !! i with
      | Some start =>
          Some (searchUsers_resolved start data now
                  (setInflightSearch (delete i (inflightSearch s)) s))
      | None => None
      end
  | SearchRejected i =>
      match inflightSearch s !! i with
      | Some _ =>
          Some (searchUsers_rejected
                  (setInflightSearch (delete i (inflightSearch s)) s))
      | None => None
      end
  | ClickUser userLogin =>
      (* {users.map((user) => <AccordionItem onClick=...>)} *)
      if bool_decide (userLogin ∈ map login (users s))
      then Some (loadRepos userLogin s) else None
  | ReposResolved userLogin data =>
      if bool_decide (userLogin ∈ inflightRepos s)
      then Some (loadRepos_resolved userLogin data
                   (setInflightRepos
                      (removeFirst userLogin (inflightRepos s)) s))
      else None
  | ReposRejected userLogin =>
      if bool_decide (userLogin ∈ inflightRepos s)
      then Some (loadRepos_rejected
                   (setInflightRepos
                      (removeFirst userLogin (inflightRepos s)) s))
      else None
  end.

(** The state after a sequence of events, if each was possible. *)
Fixpoint run (tr : list Event) (s : State) : option State :=
  match tr with
  | [] => Some s
  | e :: tr' =>
      match step e s with
      | Some s' => run tr' s'
      | None => None
      end
  end.

(** *** Histories *)

(** The events that empty the cache: a search that is issued (from the
    button or from the effect) and [clearSearch] (from the clear button or
    from the effect). *)
Definition isReset (e : Event) : bool :=
  match e with
  | ClickSearch _ | ClickClear | DebouncedChanged _ _ => true
  | _ => false
  end.

(** The logins whose repository fetch has completed successfully since the
    last reset, after one more event. *)
Definition completed (done : gset string) (e : Event) : gset string :=
  match e with
  | ReposResolved userLogin _ => {[userLogin]} ∪ done
  | _ => if isReset e then ∅ else done
  end.

Definition completedSinceReset (tr : list Event) : gset string :=
  fold_left completed tr ∅.

(** [total_count ?? 0] of the last search that resolved, 0 before the
    first. *)
Definition lastTotal (last : Z) (e : Event) : Z :=
  match e with
  | SearchResolved _ data _ => default 0%Z (total_count data)
  | _ => last
  end.

Definition lastSuccessfulTotal (tr : list Event) : Z :=
  fold_left lastTotal tr 0%Z.

(** The number of fetches of [userLogin]'s repositories in a log. *)
Fixpoint repoFetches (userLogin : string) (log : list Effect) : nat :=
  match log with
  | [] => 0
  | HttpGet (UserRepos l) :: r =>
      if decide (l = userLogin) then S (repoFetches userLogin r)
      else repoFetches userLogin r
  | _ :: r => repoFetches userLogin r
  end.

(** The network calls in a log. *)
Fixpoint requests (log : list Effect) : list Request :=
  match log with
  | [] => []
  | HttpGet r :: l => r :: requests l
  | FocusInput :: l => requests l
  end.

(** An event that writes no error message. *)
Definition silent (e : Event) : bool :=
  match e with
  | SearchRejected _ | ReposRejected _ => false
  | _ => negb (isReset e)
  end.


(** An event that applies the response of a repository fetch for
    [userLogin]. *)
Definition resolvesReposOf (userLogin : string) (e : Event) : bool :=
  match e with
  | ReposResolved l _ => bool_decide (l = userLogin)
  | _ => false
  end.

(** What the two loading flags say about the requests in flight. *)
Definition loadingSound (s : State) : Prop :=
  (loadingUser s = true -> inflightSearch s <> [])
  /\ (forall l, loadingRepos s = Some l -> l ∈ inflightRepos s).

(** *** Rendering *)

(** One repository as [RepoList] renders it (lines 217-238): the name as a
    link to [html_url], the star count and the description. *)
Record RepoCard : Type := mkRepoCard {
  cardName : string;
  cardHref : string;
  cardStars : Z;
  cardDescription : string
}.

(** Line 236, [repo.description || "No description"]: [null] and the empty
    string are falsy. *)
Definition descriptionText (repo : Repo) : string :=
  match description repo with
  | Some d => if JS.isFalsy d then "No description" else d
  | None => "No description"
  end.

Definition repoCard (repo : Repo) : RepoCard :=
  mkRepoCard (name repo) (html_url repo) (stargazers_count repo)
    (descriptionText repo).

(** What [RepoList] returns: the loading skeleton (of [rows] rows), the text
    "No repositories found.", or one card per repository. *)
Inductive RepoListView : Type :=
| Skeletons (rows : nat)
| NoRepositories
| Cards (cards : list RepoCard).

(** [RepoList] (lines 196-242); the prop [repos] is [undefined] or an
    array. *)
Definition RepoList (repos : option (list Repo)) (isLoading : bool)
  : RepoListView :=
  if isLoading then Skeletons 2
  else
    match repos with
    | None => NoRepositories
    | Some [] => NoRepositories
    | Some (repo :: rest) => Cards (map repoCard (repo :: rest))
    end.




(** *** The development proxy (vite.config.ts, [server.proxy]) *)

(** [target] of the entry for "/api". *)
Definition proxyTarget : string := "https://api.github.com".

(** [s] without its prefix [p], if [p] is a prefix of [s]. *)
Fixpoint stripPrefix (p s : string) : option string :=
  match p, s with
  | EmptyString, _ => Some s
  | String a p', String b s' =>
      if decide (a = b) then stripPrefix p' s' else None
  | String _ _, EmptyString => None
  end.

(** [rewrite: (path) => path.replace(/^\/api/, "")] *)
Definition rewrite (path : string) : string :=
  match stripPrefix "/api" path with
  | Some rest => rest
  | None => path
  end.

(** Where the development server sends a request for [path]: the rewritten
    path on the target host. *)
Definition proxied (path : string) : string := proxyTarget +:+ rewrite path.

End App.


(** * Properties *)

(** ** The debouncer *)

Section DebounceFacts.

Import Debounce.

Context {A : Type}.

Implicit Types (h : Hook A) (ins : list (Input A)) (d r t : N).

Lemma heldFor_app_le ins more : (heldFor ins <= heldFor (ins ++ more))%N.
Proof.
  induction ins as [|[v|t] ins IH]; simpl; lia.
Qed.

Lemma runHook_stable d (Hd : (0 < d)%N) ins :
  forall h, (forall r, timer h = Some r -> (0 < r)%N) ->
    debounced (runHook d ins h) = stableValue d (expected h ins) ins.
Proof.
  induction ins as [|[v|t] ins IH]; intros h Hpos; simpl.
  - unfold expected. destruct (timer h) as [r|] eqn:E; [|reflexivity].
    specialize (Hpos r eq_refl). simpl.
    destruct (N.leb_spec r 0); [lia|reflexivity].
  - rewrite IH.
    + unfold expected at 1; simpl. f_equal.
      destruct (d <=? heldFor ins)%N; [reflexivity|].
      unfold expected. destruct (timer h) as [r|] eqn:E; [|reflexivity].
      specialize (Hpos r eq_refl). simpl.
      destruct (N.leb_spec r 0); [lia|reflexivity].
    + simpl. intros r [= <-]. exact Hd.
  - destruct (timer h) as [r|] eqn:E.
    + specialize (Hpos r eq_refl).
      destruct (N.leb_spec r t) as [Hle|Hgt].
      * rewrite IH by (simpl; intros ? [=]).
        unfold expected; simpl. rewrite E.
        destruct (N.leb_spec r (t + heldFor ins)); [reflexivity|lia].
      * rewrite IH by (simpl; intros ? [= <-]; lia).
        unfold expected; simpl. rewrite E. f_equal.
        destruct (N.leb_spec (r - t) (heldFor ins));
          destruct (N.leb_spec r (t + heldFor ins)); (reflexivity || lia).
    + rewrite IH by (rewrite E; intros ? [=]).
      unfold expected. rewrite E. reflexivity.
Qed.

Lemma stableValue_zero dflt ins : stableValue 0 dflt ins = lastInput dflt ins.
Proof.
  revert dflt. induction ins as [|[v|t] ins IH]; intros dflt; simpl; auto.
  destruct (N.leb_spec 0 (heldFor ins)); [apply IH|lia].
Qed.

Lemma lastInput_advance dflt ins t :
  lastInput dflt (ins ++ [Advance t]) = lastInput dflt ins.
Proof.
  revert dflt. induction ins as [|[v|t'] ins IH]; intros dflt; simpl; auto.
Qed.

Lemma runHook_latest d ins :
  forall h, latest (runHook d ins h) = lastInput (latest h) ins.
Proof.
  induction ins as [|[v|t] ins IH]; intros h; simpl; [reflexivity| |].
  - rewrite IH. reflexivity.
  - rewrite IH. destruct (timer h) as [r|]; [|reflexivity].
    destruct (r <=? t)%N; reflexivity.
Qed.

Lemma runHook_settled0 ins : forall h, settled0 h -> settled0 (runHook 0 ins h).
Proof.
  induction ins as [|[v|t] ins IH]; intros h Hh; simpl; [exact Hh| |].
  - apply IH. reflexivity.
  - apply IH. unfold settled0 in *.
    destruct (timer h) as [r|] eqn:E.
    + subst r. destruct (N.leb_spec 0 t); [reflexivity|lia].
    + rewrite E. exact Hh.
Qed.

Lemma runHook_flush0 ins t h :
  settled0 h ->
  debounced (runHook 0 (ins ++ [Advance t]) h) = lastInput (latest h) ins.
Proof.
  intros Hh. unfold runHook. rewrite fold_left_app. simpl.
  fold (runHook 0 ins h).
  pose proof (runHook_settled0 ins h Hh) as Hs.
  rewrite <- (runHook_latest 0 ins h).
  unfold settled0 in Hs.
  destruct (timer (runHook 0 ins h)) as [r|] eqn:E.
  - subst r. destruct (N.leb_spec 0 t); [reflexivity|lia].
  - exact Hs.
Qed.

Lemma runHook_emits d ins :
  forall h,
    In (debounced (runHook d ins h))
       (debounced h ::
        match timer h with
        | Some r => if (r <=? heldFor ins)%N then [latest h] else []
        | None => []
        end ++ stableInputs d ins).
Proof.
  induction ins as [|[v|t] ins IH]; intros h.
  - left. reflexivity.
  - specialize (IH (useDebounce_step d h (Rerender v))). simpl in *.
    destruct IH as [IH|IH]; [left; exact IH|right].
    apply in_or_app. right.
    destruct (d <=? heldFor ins)%N; exact IH.
  - specialize (IH (useDebounce_step d h (Advance t))). simpl in *.
    destruct (timer h) as [r|] eqn:E.
    + destruct (N.leb_spec r t) as [Hle|Hgt]; simpl in IH.
      * destruct (N.leb_spec r (t + heldFor ins)); [|lia].
        destruct IH as [IH|IH]; right; [left; exact IH|right; exact IH].
      * destruct IH as [IH|IH]; [left; exact IH|right].
        destruct (N.leb_spec (r - t) (heldFor ins));
          destruct (N.leb_spec r (t + heldFor ins)); (exact IH || lia).
    + rewrite E in IH. exact IH.
Qed.

Lemma stableInputs_app d ins more x :
  In x (stableInputs d ins) -> In x (stableInputs d (ins ++ more)).
Proof.
  induction ins as [|[v|t] ins IH]; simpl; [tauto| |exact IH].
  pose proof (heldFor_app_le ins more).
  destruct (N.leb_spec d (heldFor ins));
    destruct (N.leb_spec d (heldFor (ins ++ more))); simpl; try lia; tauto.
Qed.

(** C2 (as amended): the initial debounced value is the initial input value,
    with no delay.  For every delay [d > 0] and every timed sequence of input
    values, the debouncer's output is at every instant the most recent input
    value that has remained unchanged for at least [d] ms (the initial value
    when there is none yet).  With a delay of zero the same holds once a
    scheduling tick has run after the last input.  For every delay the output
    is the initial value or an input value that stayed the latest for at
    least [d] ms: it is never a value superseded within the delay window. *)
Theorem debounce_emits_stable_value (d : N) (value : A) (ins : list (Input A)) :
  debounced (useDebounce d value []) = value
  /\ ((0 < d)%N ->
      debounced (useDebounce d value ins) = stableValue d value ins)
  /\ (forall t,
        debounced (useDebounce 0 value (ins ++ [Advance t]))
        = stableValue 0 value (ins ++ [Advance t]))
  /\ (forall more,
        In (debounced (useDebounce d value ins))
           (value :: stableInputs d (ins ++ more))).
Proof.
  split; [reflexivity|]. split; [|split].
  - intros Hd. unfold useDebounce.
    rewrite (runHook_stable d Hd ins) by (simpl; intros ? [=]).
    reflexivity.
  - intros t. unfold useDebounce.
    rewrite runHook_flush0 by reflexivity.
    rewrite stableValue_zero, lastInput_advance. reflexivity.
  - intros more. unfold useDebounce.
    destruct (runHook_emits d ins (useDebounce_init value)) as [H|H].
    + left. exact H.
    + right. apply stableInputs_app. exact H.
Qed.

End DebounceFacts.

(** The hook's test "cancels previous timeout when value changes rapidly". *)
Example useDebounce_rapid_changes :
  let ins := [Debounce.Rerender "first-update"; Debounce.Advance 300;
              Debounce.Rerender "second-update"; Debounce.Advance 200] in
  Debounce.debounced (Debounce.useDebounce 500 "initial" ins) = "initial"
  /\ Debounce.debounced
       (Debounce.useDebounce 500 "initial" (ins ++ [Debounce.Advance 300]))
     = "second-update".
Proof. split; reflexivity. Qed.

(** The hook's test "returns updated value after custom delay". *)
Example useDebounce_custom_delay :
  Debounce.debounced
    (Debounce.useDebounce 1000 "initial"
       [Debounce.Rerender "updated"; Debounce.Advance 500]) = "initial"
  /\ Debounce.debounced
       (Debounce.useDebounce 1000 "initial"
          [Debounce.Rerender "updated"; Debounce.Advance 500;
           Debounce.Advance 500]) = "updated".
Proof. split; reflexivity. Qed.

Lemma debounce_emits_stable_value_witness :
  (0 < 500)%N
  /\ Debounce.debounced
       (Debounce.useDebounce 500 "initial"
          [Debounce.Rerender "first-update"; Debounce.Advance 300;
           Debounce.Rerender "second-update"; Debounce.Advance 500])
     = "second-update".
Proof.
  split; [reflexivity|].
  exact (proj1 (proj2 (debounce_emits_stable_value 500 "initial"
          [Debounce.Rerender "first-update"; Debounce.Advance 300;
           Debounce.Rerender "second-update"; Debounce.Advance 500]))
          eq_refl).
Defined.

(** C2, as stated, fails for a delay of zero (the hook's test "handles zero
    delay"): right after the render with ["updated"] that value has been
    unchanged for at least 0 ms, and the output is still ["initial"]. *)
Lemma debounce_zero_delay_lags :
  Debounce.debounced
    (Debounce.useDebounce 0 "initial" [Debounce.Rerender "updated"])
  = "initial"
  /\ Debounce.stableValue 0 "initial" [Debounce.Rerender "updated"]
     = "updated".
Proof. split; reflexivity. Qed.

(** ** The application *)

Import App.

(** *** Strings *)

Lemma isFalsy_true (s : string) : JS.isFalsy s = true <-> s = "".
Proof. destruct s; simpl; split; congruence. Qed.

Lemma isFalsy_false (s : string) : JS.isFalsy s = false <-> s <> "".
Proof. destruct s; simpl; split; congruence. Qed.

Lemma trimStart_allWhiteSpace (s : string) :
  JS.allWhiteSpace s = true -> JS.trimStart s = "".
Proof.
  induction s as [|c s IH]; simpl; [reflexivity|].
  intros [Hc Hs]%andb_prop. rewrite Hc. auto.
Qed.

Lemma trim_allWhiteSpace (s : string) :
  JS.allWhiteSpace s = true -> JS.trim s = "".
Proof.
  intros H. unfold JS.trim, JS.trimEnd.
  rewrite (trimStart_allWhiteSpace s H). reflexivity.
Qed.

(** A string that is not blank is not empty: what the Search button and the
    effect let through, [searchUsers] does not drop. *)
Lemma trim_truthy (s : string) :
  JS.isFalsy (JS.trim s) = false -> JS.isFalsy s = false.
Proof. destruct s; [discriminate|reflexivity]. Qed.

(** The test "does not search when input is empty or whitespace": with three
    spaces typed the Search button is disabled, and the effect issues no
    request. *)
Example blank_input_does_not_search :
  JS.trim "   " = ""
  /\ step (ClickSearch 1000%float) (setUsername "   " initialState) = None
  /\ requests (effects (onDebouncedUsername "   " 1000%float
                          (setUsername "   " initialState))) = [].
Proof. repeat split; reflexivity. Qed.

Example trim_inner_space : JS.trim "  octo cat  " = "octo cat".
Proof. reflexivity. Qed.

(** The URLs the tests expect in development mode. *)
Example url_search : url true (SearchUsers "testuser")
                     = "/api/search/users?q=testuser&per_page=10".
Proof. reflexivity. Qed.

Example url_repos : url true (UserRepos "testuser1")
                    = "/api/users/testuser1/repos".
Proof. reflexivity. Qed.

(** *** The search controller *)

(** A search that is issued is the clearing of lines 50-55 followed by the
    request of line 57. *)
Lemma searchUsers_issued (query : string) (now : time) (s : State) :
  query <> "" ->
  searchUsers query now s
  = searchUsers_await query now (searchUsers_prepare s).
Proof.
  intros H%isFalsy_false. unfold searchUsers. rewrite H. reflexivity.
Qed.

(** C6: for every non-empty query, the controller clears the prior users, the
    repo cache, the error and the search time before it issues the request
    (the log of effects is still as it was when they are cleared), and the
    continuation suspended at the request holds the clock reading taken on
    entry as its start timestamp. *)
Theorem search_clears_before_request
    (query : string) (now : time) (s : State) :
  query <> "" ->
  let cleared := searchUsers_prepare s in
  let issued := searchUsers query now s in
  (users cleared = [] /\ reposMap cleared = ∅ /\ error cleared = ""
   /\ searchTime cleared = None /\ effects cleared = effects s
   /\ inflightSearch cleared = inflightSearch s)
  /\ issued = searchUsers_await query now cleared
  /\ effects issued = (effects s ++ [HttpGet (SearchUsers query)])%list
  /\ inflightSearch issued = (inflightSearch s ++ [now])%list
  /\ users issued = [] /\ reposMap issued = ∅ /\ error issued = ""
  /\ searchTime issued = None.
Proof.
  intros H cleared issued. subst cleared issued.
  rewrite (searchUsers_issued query now s H).
  repeat split; reflexivity.
Qed.

Lemma search_clears_before_request_witness :
  "testuser" <> ""
  /\ effects (searchUsers "testuser" 1000%float initialState)
     = [HttpGet (SearchUsers "testuser")]
  /\ inflightSearch (searchUsers "testuser" 1000%float initialState)
     = [1000%float].
Proof.
  split; [discriminate|].
  pose proof (search_clears_before_request "testuser" 1000%float initialState
                ltac:(discriminate)) as H.
  simpl in H. split; apply H.
Defined.

(** C3: when a search request resolves, the controller sets [users] to the
    response's [items] (the empty list when the field is absent),
    [totalCount] to its [total_count] (0 when absent) and [searchTime] to the
    clock reading minus the start timestamp recorded for that request. *)
Theorem search_success_sets_results
    (s : State) (i : nat) (start : time) (data : SearchData) (now : time) :
  inflightSearch s !! i = Some start ->
  exists s',
    step (SearchResolved i data now) s = Some s'
    /\ users s' = default [] (items data)
    /\ totalCount s' = default 0%Z (total_count data)
    /\ searchTime s' = Some (now - start)%float.
Proof.
  intros H. simpl. rewrite H. eexists. split; [reflexivity|].
  repeat split; reflexivity.
Qed.

(** The test "displays search time after successful search": the clock reads
    1000, then 1500; the response has three users and no [total_count]. *)
Lemma search_success_sets_results_witness :
  inflightSearch (searchUsers "testuser" 1000%float initialState) !! 0%nat
  = Some 1000%float
  /\ exists s',
      step (SearchResolved 0
              (mkSearchData
                 (Some [mkUser "testuser1"; mkUser "testuser2";
                        mkUser "testuser3"]) None)
              1500%float)
        (searchUsers "testuser" 1000%float initialState) = Some s'
      /\ users s' = [mkUser "testuser1"; mkUser "testuser2";
                     mkUser "testuser3"]
      /\ totalCount s' = 0%Z
      /\ searchTime s' = Some 500%float.
Proof.
  split; [reflexivity|].
  exact (search_success_sets_results
           (searchUsers "testuser" 1000%float initialState) 0 1000%float
           (mkSearchData
              (Some [mkUser "testuser1"; mkUser "testuser2";
                     mkUser "testuser3"]) None)
           1500%float eq_refl).
Defined.






(** *** The empty-input reset *)

(** C4 (as amended): whenever the debounced query becomes empty or
    all-whitespace, the effect runs [clearSearch] and issues no request: the
    raw input, the users, the repo cache and the error are reset to their
    initial values and no search time is shown.  The reset does not touch the
    stored search time (nor the total count and the loading flags). *)
Theorem blank_query_resets (value : string) (now : time) (s : State) :
  JS.allWhiteSpace value = true ->
  let s' := onDebouncedUsername value now s in
  s' = clearSearch s
  /\ username s' = "" /\ users s' = [] /\ reposMap s' = ∅ /\ error s' = ""
  /\ summaryShown s' = false
  /\ requests (effects s') = requests (effects s)
  /\ inflightSearch s' = inflightSearch s
  /\ inflightRepos s' = inflightRepos s
  /\ searchTime s' = searchTime s
  /\ totalCount s' = totalCount s
  /\ loadingUser s' = loadingUser s
  /\ loadingRepos s' = loadingRepos s.
Proof.
  intros H s'. subst s'. unfold onDebouncedUsername.
  rewrite (trim_allWhiteSpace value H). simpl.
  repeat split; try reflexivity.
  induction (effects s) as [|[r|] log IH]; simpl; congruence.
Qed.

Lemma blank_query_resets_witness :
  JS.allWhiteSpace "   " = true
  /\ onDebouncedUsername "   " 2000%float
       (setError "Failed to fetch users." initialState)
     = clearSearch (setError "Failed to fetch users." initialState)
  /\ error (onDebouncedUsername "   " 2000%float
              (setError "Failed to fetch users." initialState)) = "".
Proof.
  split; [reflexivity|].
  pose proof (blank_query_resets "   " 2000%float
                (setError "Failed to fetch users." initialState) eq_refl) as H.
  split; apply H.
Defined.

(** C4, as stated, fails: after a search that succeeded in 500 ms, an
    all-whitespace debounced query empties [users] and leaves [searchTime] at
    500 (and [totalCount] at 1), not absent as in the initial state. *)
Lemma blank_query_keeps_search_time :
  exists s,
    run [Typed "octo"; DebouncedChanged "octo" 1000%float;
         SearchResolved 0 (mkSearchData (Some [mkUser "octocat"]) (Some 1%Z))
           1500%float;
         Typed "  "; DebouncedChanged "  " 2000%float] initialState = Some s
    /\ users s = []
    /\ searchTime s = Some 500%float
    /\ searchTime initialState = None.
Proof. eexists. split; [reflexivity|]. repeat split; reflexivity. Qed.

(** *** Runs *)

Lemma run_app (tr1 tr2 : list Event) (s : State) :
  run (tr1 ++ tr2) s
  = match run tr1 s with Some s' => run tr2 s' | None => None end.
Proof.
  revert s. induction tr1 as [|e tr1 IH]; intros s; simpl; [reflexivity|].
  destruct (step e s); [apply IH|reflexivity].
Qed.

(** A property that every step carries from a state to the next holds along
    a run. *)
Lemma run_fold {X : Type} (f : X -> Event -> X) (g : State -> X) :
  (forall e s s', step e s = Some s' -> g s' = f (g s) e) ->
  forall tr s s', run tr s = Some s' -> g s' = fold_left f tr (g s).
Proof.
  intros Hstep tr. induction tr as [|e tr IH]; intros s s' H; simpl in *.
  - congruence.
  - destruct (step e s) as [s1|] eqn:E; [|discriminate].
    rewrite <- (Hstep e s s1 E). apply IH. exact H.
Qed.

(** Each event changes the keys of the cache as [completed] says. *)
Lemma step_dom (e : Event) (s s' : State) :
  step e s = Some s' ->
  dom (reposMap s') = completed (dom (reposMap s)) e.
Proof.
  destruct e; simpl; intros H.
  - injection H as <-. reflexivity.
  - destruct (JS.isFalsy (JS.trim (username s))) eqn:E; [discriminate|].
    injection H as <-. unfold searchUsers.
    rewrite (trim_truthy _ E). simpl. apply dom_empty_L.
  - destruct (JS.isFalsy (username s)); [discriminate|].
    injection H as <-. simpl. apply dom_empty_L.
  - injection H as <-. unfold onDebouncedUsername.
    destruct (JS.isFalsy (JS.trim value)) eqn:E; simpl.
    + apply dom_empty_L.
    + unfold searchUsers. rewrite (trim_truthy _ E). simpl. apply dom_empty_L.
  - destruct (inflightSearch s !! i); [|discriminate].
    injection H as <-. reflexivity.
  - destruct (inflightSearch s !! i); [|discriminate].
    injection H as <-. reflexivity.
  - case_bool_decide; [|discriminate]. injection H as <-.
    unfold loadRepos. destruct (cached (reposMap s) userLogin); reflexivity.
  - case_bool_decide; [|discriminate]. injection H as <-.
    simpl. apply dom_insert_L.
  - case_bool_decide; [|discriminate]. injection H as <-. reflexivity.
Qed.

(** Each event changes the total count as [lastTotal] says. *)
Lemma step_totalCount (e : Event) (s s' : State) :
  step e s = Some s' -> totalCount s' = lastTotal (totalCount s) e.
Proof.
  destruct e; simpl; intros H.
  - injection H as <-. reflexivity.
  - destruct (JS.isFalsy (JS.trim (username s))); [discriminate|].
    injection H as <-. unfold searchUsers.
    destruct (JS.isFalsy (username s)); reflexivity.
  - destruct (JS.isFalsy (username s)); [discriminate|].
    injection H as <-. reflexivity.
  - injection H as <-. unfold onDebouncedUsername, searchUsers.
    destruct (JS.isFalsy (JS.trim value)); [reflexivity|].
    destruct (JS.isFalsy value); reflexivity.
  - destruct (inflightSearch s !! i); [|discriminate].
    injection H as <-. reflexivity.
  - destruct (inflightSearch s !! i); [|discriminate].
    injection H as <-. reflexivity.
  - case_bool_decide; [|discriminate]. injection H as <-.
    unfold loadRepos. destruct (cached (reposMap s) userLogin); reflexivity.
  - case_bool_decide; [|discriminate]. injection H as <-. reflexivity.
  - case_bool_decide; [|discriminate]. injection H as <-. reflexivity.
Qed.

(** *** The repository cache *)

(** C7: at every reachable state the keys of the repo cache are exactly the
    logins whose repository fetch has completed successfully since the last
    reset of the cache, and issuing a new search resets the cache. *)
Theorem cache_keys_are_completed_fetches (tr : list Event) (s : State) :
  run tr initialState = Some s ->
  (forall userLogin,
     userLogin ∈ dom (reposMap s) <-> userLogin ∈ completedSinceReset tr)
  /\ (forall query now, query <> "" -> reposMap (searchUsers query now s) = ∅).
Proof.
  intros H. split.
  - intros userLogin.
    rewrite (run_fold completed (fun s => dom (reposMap s)) step_dom _ _ _ H).
    simpl. rewrite dom_empty_L. reflexivity.
  - intros query now Hq. rewrite (searchUsers_issued query now s Hq).
    reflexivity.
Qed.

Lemma cache_keys_are_completed_fetches_witness :
  (exists s,
     run [Typed "octo"; DebouncedChanged "octo" 1000%float;
          SearchResolved 0 (mkSearchData (Some [mkUser "octocat"]) (Some 1%Z))
            1500%float;
          ClickUser "octocat"; ReposResolved "octocat" []] initialState
     = Some s
     /\ ("octocat" ∈ dom (reposMap s)
         <-> "octocat" ∈
             completedSinceReset
               [Typed "octo"; DebouncedChanged "octo" 1000%float;
                SearchResolved 0
                  (mkSearchData (Some [mkUser "octocat"]) (Some 1%Z))
                  1500%float;
                ClickUser "octocat"; ReposResolved "octocat" []])).
Proof.
  match goal with
  | |- exists s, ?r = Some s /\ _ => destruct r as [s|] eqn:E
  end; [|vm_compute in E; discriminate].
  exists s. split; [reflexivity|].
  exact (proj1 (cache_keys_are_completed_fetches _ s E) "octocat").
Defined.

(** *** The total count *)

(** C10: the total count is left as it is by the clearing that precedes a new
    search, by a failed search and by the empty-input reset; at every
    reachable state it holds the total of the last search that resolved, and
    0 before the first. *)
Theorem totalCount_kept_until_next_success (tr : list Event) (s : State) :
  run tr initialState = Some s ->
  totalCount s = lastSuccessfulTotal tr
  /\ (forall query now,
        totalCount (searchUsers_prepare s) = totalCount s
        /\ totalCount (searchUsers query now s) = totalCount s)
  /\ totalCount (searchUsers_rejected s) = totalCount s
  /\ totalCount (clearSearch s) = totalCount s
  /\ (forall value now,
        JS.allWhiteSpace value = true ->
        totalCount (onDebouncedUsername value now s) = totalCount s).
Proof.
  intros H. split; [|split; [|split; [|split]]].
  - exact (run_fold lastTotal totalCount step_totalCount _ _ _ H).
  - intros query now. split; [reflexivity|].
    unfold searchUsers. destruct (JS.isFalsy query); reflexivity.
  - reflexivity.
  - reflexivity.
  - intros value now Hv. unfold onDebouncedUsername.
    rewrite (trim_allWhiteSpace value Hv). reflexivity.
Qed.

Lemma totalCount_kept_until_next_success_witness :
  exists s,
    run [Typed "octo"; DebouncedChanged "octo" 1000%float;
         SearchResolved 0 (mkSearchData (Some [mkUser "octocat"]) (Some 7%Z))
           1500%float;
         ClickSearch 2000%float; SearchRejected 0;
         Typed ""; DebouncedChanged "" 3000%float] initialState = Some s
    /\ totalCount s = 7%Z.
Proof.
  match goal with
  | |- exists s, ?r = Some s /\ _ => destruct r as [s|] eqn:E
  end; [|vm_compute in E; discriminate].
  exists s. split; [reflexivity|].
  exact (proj1 (totalCount_kept_until_next_success _ s E)).
Defined.

(** *** The repository loader *)

Lemma repoFetches_app (userLogin : string) (log1 log2 : list Effect) :
  repoFetches userLogin (log1 ++ log2)
  = (repoFetches userLogin log1 + repoFetches userLogin log2)%nat.
Proof.
  induction log1 as [|[[q|l]|] log1 IH]; simpl; try exact IH.
  - reflexivity.
  - case_decide; simpl; congruence.
Qed.

Lemma cached_key (m : gmap string (list Repo)) (userLogin : string) :
  is_Some (m !! userLogin) -> cached m userLogin = true.
Proof. intros [repos H]. unfold cached. rewrite H. reflexivity. Qed.

(** A call for a login that is a key of the cache does nothing. *)
Lemma loadRepos_hit (userLogin : string) (s : State) :
  is_Some (reposMap s !! userLogin) -> loadRepos userLogin s = s.
Proof.
  intros H. unfold loadRepos. rewrite (cached_key _ _ H). reflexivity.
Qed.

(** A call for a login that line 69 does not find issues the request. *)
Lemma loadRepos_miss (userLogin : string) (s : State) :
  cached (reposMap s) userLogin = false ->
  loadRepos userLogin s
  = setInflightRepos (inflightRepos s ++ [userLogin])
      (perform (HttpGet (UserRepos userLogin))
         (setLoadingRepos (Some userLogin) s)).
Proof. intros H. unfold loadRepos. rewrite H. reflexivity. Qed.

(** Between two resets a key stays in the cache, and no fetch for it is
    issued. *)
Lemma step_keeps_key (userLogin : string) (e : Event) (s s' : State) :
  isReset e = false ->
  step e s = Some s' ->
  is_Some (reposMap s !! userLogin) ->
  is_Some (reposMap s' !! userLogin)
  /\ repoFetches userLogin (effects s') = repoFetches userLogin (effects s).
Proof.
  intros Hr H Hk. destruct e; simpl in *; try discriminate.
  - injection H as <-. auto.
  - destruct (inflightSearch s !! i); [|discriminate].
    injection H as <-. auto.
  - destruct (inflightSearch s !! i); [|discriminate].
    injection H as <-. auto.
  - case_bool_decide; [|discriminate]. injection H as <-.
    unfold loadRepos. destruct (cached (reposMap s) userLogin0) eqn:E; [auto|].
    simpl. split; [exact Hk|].
    rewrite repoFetches_app. simpl.
    case_decide; [|lia]. subst userLogin0.
    rewrite (cached_key _ _ Hk) in E. discriminate.
  - case_bool_decide; [|discriminate]. injection H as <-. simpl.
    split; [|reflexivity].
    rewrite lookup_insert. case_decide; [eauto|exact Hk].
  - case_bool_decide; [|discriminate]. injection H as <-. auto.
Qed.

Lemma run_keeps_key (userLogin : string) (tr : list Event) :
  forallb (fun e => negb (isReset e)) tr = true ->
  forall s s',
    run tr s = Some s' ->
    is_Some (reposMap s !! userLogin) ->
    is_Some (reposMap s' !! userLogin)
    /\ repoFetches userLogin (effects s') = repoFetches userLogin (effects s).
Proof.
  induction tr as [|e tr IH]; simpl; intros Hall s s' H Hk.
  - injection H as <-. auto.
  - apply andb_prop in Hall as [He Hall]. apply negb_true_iff in He.
    destruct (step e s) as [s1|] eqn:E; [|discriminate].
    destruct (step_keeps_key userLogin e s s1 He E Hk) as [Hk1 Hf1].
    destruct (IH Hall s1 s' H Hk1) as [Hk' Hf']. split; [exact Hk'|].
    congruence.
Qed.

(** C1 (as amended): once a login is a key of the cache (a fetch for it has
    completed successfully), the loader issues no further fetch for it until
    the cache is reset: [loadRepos] for that login changes nothing and makes
    no network call, also when called twice in sequence, and along any events
    without a reset the login stays cached and the number of fetches issued
    for it stays the same.  A first call followed by its response and two
    more calls makes exactly one network call in total.  Fetches that failed
    or are still in flight are not counted. *)
Theorem cached_login_is_not_fetched_again (s : State) (userLogin : string) :
  (is_Some (reposMap s !! userLogin) ->
   loadRepos userLogin s = s
   /\ loadRepos userLogin (loadRepos userLogin s) = s
   /\ forall tr s',
        forallb (fun e => negb (isReset e)) tr = true ->
        run tr s = Some s' ->
        is_Some (reposMap s' !! userLogin)
        /\ repoFetches userLogin (effects s')
           = repoFetches userLogin (effects s))
  /\ (cached (reposMap s) userLogin = false ->
      forall data,
      exists s',
        step (ReposResolved userLogin data) (loadRepos userLogin s) = Some s'
        /\ reposMap s' !! userLogin = Some data
        /\ repoFetches userLogin
             (effects (loadRepos userLogin (loadRepos userLogin s')))
           = S (repoFetches userLogin (effects s))).
Proof.
  split.
  - intros Hk. rewrite !(loadRepos_hit userLogin s Hk).
    repeat split; try reflexivity;
      eapply (run_keeps_key userLogin tr); eassumption.
  - intros Hm data. rewrite (loadRepos_miss userLogin s Hm). simpl.
    rewrite bool_decide_eq_true_2 by (apply elem_of_app; right; left).
    eexists. split; [reflexivity|]. simpl. split.
    + apply lookup_insert_eq.
    + match goal with
      | |- context [loadRepos userLogin (loadRepos userLogin ?s2)] =>
          assert (is_Some (reposMap s2 !! userLogin)) as Hk
            by (simpl; rewrite lookup_insert_eq; eauto);
          rewrite !(loadRepos_hit userLogin s2 Hk)
      end.
      simpl. rewrite repoFetches_app. simpl.
      case_decide; [lia|congruence].
Qed.

(** The test "does not re-fetch repos on second click (cache works)". *)
Lemma cached_login_is_not_fetched_again_witness :
  cached (reposMap (setUsers [mkUser "testuser1"] initialState)) "testuser1"
  = false
  /\ exists s',
      step (ReposResolved "testuser1" [])
           (loadRepos "testuser1" (setUsers [mkUser "testuser1"] initialState))
      = Some s'
      /\ reposMap s' !! "testuser1" = Some []
      /\ repoFetches "testuser1"
           (effects (loadRepos "testuser1" (loadRepos "testuser1" s')))
         = 1%nat.
Proof.
  split; [vm_compute; reflexivity|].
  refine (proj2 (cached_login_is_not_fetched_again
                   (setUsers [mkUser "testuser1"] initialState) "testuser1")
                _ []).
  vm_compute. reflexivity.
Defined.

(** C1, as stated, fails: within one lifetime of the cache the loader issues
    two fetches for the same login when the first one fails, and also when
    the item is clicked again while the first fetch is in flight. *)
Lemma two_fetches_for_one_login :
  (exists s,
     run [Typed "octo"; DebouncedChanged "octo" 1000%float;
          SearchResolved 0 (mkSearchData (Some [mkUser "octocat"]) (Some 1%Z))
            1500%float;
          ClickUser "octocat"; ReposRejected "octocat"; ClickUser "octocat"]
       initialState = Some s
     /\ requests (effects s)
        = [SearchUsers "octo"; UserRepos "octocat"; UserRepos "octocat"])
  /\ (exists s,
        run [Typed "octo"; DebouncedChanged "octo" 1000%float;
             SearchResolved 0
               (mkSearchData (Some [mkUser "octocat"]) (Some 1%Z)) 1500%float;
             ClickUser "octocat"; ClickUser "octocat"]
          initialState = Some s
        /\ requests (effects s)
           = [SearchUsers "octo"; UserRepos "octocat"; UserRepos "octocat"]).
Proof.
  split; (eexists; split; [vm_compute; reflexivity|]); vm_compute; reflexivity.
Qed.

Lemma removeFirst_subseteq (x y : string) (l : list string) :
  x ∈ removeFirst y l -> x ∈ l.
Proof.
  induction l as [|z l IH]; simpl; [auto|].
  case_decide as Hyz.
  - intros Hx. right. exact Hx.
  - intros [->|Hx]%elem_of_cons; [left|right; auto].
Qed.

(** A fetch is never issued for a name that objects inherit: line 69 finds
    the inherited property and returns. *)
Lemma step_inflight_own (e : Event) (s s' : State) :
  step e s = Some s' ->
  (forall l, l ∈ inflightRepos s -> l ∉ JS.objectPrototypeKeys) ->
  forall l, l ∈ inflightRepos s' -> l ∉ JS.objectPrototypeKeys.
Proof.
  intros H Hs l. destruct e; simpl in H.
  - injection H as <-. apply Hs.
  - destruct (JS.isFalsy (JS.trim (username s))); [discriminate|].
    injection H as <-. unfold searchUsers.
    destruct (JS.isFalsy (username s)); apply Hs.
  - destruct (JS.isFalsy (username s)); [discriminate|].
    injection H as <-. apply Hs.
  - injection H as <-. unfold onDebouncedUsername, searchUsers.
    destruct (JS.isFalsy (JS.trim value)); [apply Hs|].
    destruct (JS.isFalsy value); apply Hs.
  - destruct (inflightSearch s !! i); [|discriminate].
    injection H as <-. apply Hs.
  - destruct (inflightSearch s !! i); [|discriminate].
    injection H as <-. apply Hs.
  - case_bool_decide; [|discriminate]. injection H as <-.
    unfold loadRepos, cached.
    destruct (reposMap s !! userLogin); [apply Hs|].
    case_bool_decide; [apply Hs|]. simpl.
    intros [Hl|Hl]%elem_of_app; [apply Hs; exact Hl|].
    apply list_elem_of_singleton in Hl as ->. assumption.
  - case_bool_decide; [|discriminate]. injection H as <-. simpl.
    intros Hl%removeFirst_subseteq. apply Hs. exact Hl.
  - case_bool_decide; [|discriminate]. injection H as <-. simpl.
    intros Hl%removeFirst_subseteq. apply Hs. exact Hl.
Qed.

Lemma run_inflight_own (tr : list Event) :
  forall s s',
    run tr s = Some s' ->
    (forall l, l ∈ inflightRepos s -> l ∉ JS.objectPrototypeKeys) ->
    forall l, l ∈ inflightRepos s' -> l ∉ JS.objectPrototypeKeys.
Proof.
  induction tr as [|e tr IH]; simpl; intros s s' H Hs.
  - injection H as <-. exact Hs.
  - destruct (step e s) as [s1|] eqn:E; [|discriminate].
    apply (IH s1 s' H). exact (step_inflight_own e s s1 E Hs).
Qed.

(** Without a successful fetch for it, a login stays out of the cache. *)
Lemma step_keeps_absent (userLogin : string) (e : Event) (s s' : State) :
  resolvesReposOf userLogin e = false ->
  step e s = Some s' ->
  reposMap s !! userLogin = None -> reposMap s' !! userLogin = None.
Proof.
  intros He H Hn. destruct e; simpl in *.
  - injection H as <-. exact Hn.
  - destruct (JS.isFalsy (JS.trim (username s))); [discriminate|].
    injection H as <-. unfold searchUsers.
    destruct (JS.isFalsy (username s)); [exact Hn|apply lookup_empty].
  - destruct (JS.isFalsy (username s)); [discriminate|].
    injection H as <-. apply lookup_empty.
  - injection H as <-. unfold onDebouncedUsername, searchUsers.
    destruct (JS.isFalsy (JS.trim value)); [apply lookup_empty|].
    destruct (JS.isFalsy value); [exact Hn|apply lookup_empty].
  - destruct (inflightSearch s !! i); [|discriminate].
    injection H as <-. exact Hn.
  - destruct (inflightSearch s !! i); [|discriminate].
    injection H as <-. exact Hn.
  - case_bool_decide; [|discriminate]. injection H as <-.
    unfold loadRepos. destruct (cached (reposMap s) userLogin0); exact Hn.
  - case_bool_decide; [|discriminate]. injection H as <-. simpl.
    apply bool_decide_eq_false_1 in He.
    rewrite lookup_insert_ne by exact He. exact Hn.
  - case_bool_decide; [|discriminate]. injection H as <-. exact Hn.
Qed.

Lemma run_keeps_absent (userLogin : string) (tr : list Event) :
  forallb (fun e => negb (resolvesReposOf userLogin e)) tr = true ->
  forall s s',
    run tr s = Some s' ->
    reposMap s !! userLogin = None -> reposMap s' !! userLogin = None.
Proof.
  induction tr as [|e tr IH]; simpl; intros Hall s s' H Hn.
  - injection H as <-. exact Hn.
  - apply andb_prop in Hall as [He Hall]. apply negb_true_iff in He.
    destruct (step e s) as [s1|] eqn:E; [|discriminate].
    apply (IH Hall s1 s' H). exact (step_keeps_absent userLogin e s s1 He E Hn).
Qed.

(** C8 (as amended): when a repository fetch fails, the loader sets the error
    to "Failed to fetch repositories." and leaves the cache as it is.  When
    the login has no cache entry at that moment, a later [loadRepos] call for
    it issues a new fetch, as long as no other fetch for that login has
    resolved in between; when another fetch for the login has already put an
    entry in the cache, a later call issues nothing.  Whether the fetch fails
    or succeeds, no login is marked as loading once the request has
    settled. *)
Theorem repo_failure_allows_retry
    (tr : list Event) (s : State) (userLogin : string) :
  run tr initialState = Some s ->
  userLogin ∈ inflightRepos s ->
  (exists s',
     step (ReposRejected userLogin) s = Some s'
     /\ error s' = "Failed to fetch repositories."
     /\ reposMap s' = reposMap s
     /\ loadingRepos s' = None
     /\ (reposMap s !! userLogin = None ->
         forall later s2,
           forallb (fun e => negb (resolvesReposOf userLogin e)) later = true ->
           run later s' = Some s2 ->
           effects (loadRepos userLogin s2)
           = (effects s2 ++ [HttpGet (UserRepos userLogin)])%list
           /\ userLogin ∈ inflightRepos (loadRepos userLogin s2))
     /\ (is_Some (reposMap s !! userLogin) ->
         loadRepos userLogin s' = s'))
  /\ (forall data,
      exists s',
        step (ReposResolved userLogin data) s = Some s'
        /\ loadingRepos s' = None).
Proof.
  intros Hrun Hin.
  assert (userLogin ∉ JS.objectPrototypeKeys) as Hown.
  { apply (run_inflight_own tr initialState s Hrun); [|exact Hin].
    simpl. intros l Hl. apply elem_of_nil in Hl. contradiction. }
  split.
  - simpl. rewrite bool_decide_eq_true_2 by exact Hin.
    eexists. split; [reflexivity|].
    split; [reflexivity|]. split; [reflexivity|]. split; [reflexivity|].
    split.
    + intros Hnone later s2 Hall Hlater.
      assert (reposMap s2 !! userLogin = None) as Hn2
        by (apply (run_keeps_absent userLogin later Hall _ s2 Hlater);
            exact Hnone).
      rewrite loadRepos_miss.
      * simpl. split; [reflexivity|]. apply elem_of_app. right. left.
      * unfold cached. rewrite Hn2.
        apply bool_decide_eq_false_2. exact Hown.
    + intros Hsome. apply loadRepos_hit. exact Hsome.
  - intros data. simpl. rewrite bool_decide_eq_true_2 by exact Hin.
    eexists. split; reflexivity.
Qed.

Lemma repo_failure_allows_retry_witness :
  exists s,
    run [Typed "octo"; DebouncedChanged "octo" 1000%float;
         SearchResolved 0 (mkSearchData (Some [mkUser "octocat"]) (Some 1%Z))
           1500%float;
         ClickUser "octocat"] initialState = Some s
    /\ "octocat" ∈ inflightRepos s
    /\ reposMap s !! "octocat" = None
    /\ exists s',
        step (ReposRejected "octocat") s = Some s'
        /\ error s' = "Failed to fetch repositories."
        /\ effects (loadRepos "octocat" s')
           = (effects s' ++ [HttpGet (UserRepos "octocat")])%list.
Proof.
  match goal with
  | |- exists s, ?r = Some s /\ _ => destruct r as [s|] eqn:E
  end; [|vm_compute in E; discriminate].
  exists s.
  assert ("octocat" ∈ inflightRepos s /\ reposMap s !! "octocat" = None)
    as [Hin Hnone].
  { pose proof E as E'. vm_compute in E'. injection E' as <-.
    split; [left|vm_compute; reflexivity]. }
  split; [reflexivity|]. split; [exact Hin|]. split; [exact Hnone|].
  destruct (proj1 (repo_failure_allows_retry _ s "octocat" E Hin))
    as (s' & Hstep & Herr & _ & _ & Hretry & _).
  exists s'. split; [exact Hstep|]. split; [exact Herr|].
  exact (proj1 (Hretry Hnone [] s' eq_refl eq_refl)).
Defined.

(** C8, as stated, fails: the item is clicked twice while its first fetch is
    in flight, one fetch resolves and the other fails; the error is set, the
    login has a cache entry from the fetch that resolved, and a later
    [loadRepos] call for it issues no fetch. *)
Lemma failed_fetch_without_retry :
  exists s,
    run [Typed "octo"; DebouncedChanged "octo" 1000%float;
         SearchResolved 0 (mkSearchData (Some [mkUser "octocat"]) (Some 1%Z))
           1500%float;
         ClickUser "octocat"; ClickUser "octocat";
         ReposResolved "octocat" []; ReposRejected "octocat"] initialState
    = Some s
    /\ error s = "Failed to fetch repositories."
    /\ reposMap s !! "octocat" = Some []
    /\ effects (loadRepos "octocat" s) = effects s.
Proof.
  eexists. split; [vm_compute; reflexivity|].
  split; [reflexivity|]. split; vm_compute; reflexivity.
Qed.

(** *** The error field *)

Lemma step_silent_error (e : Event) (s s' : State) :
  silent e = true -> step e s = Some s' -> error s' = error s.
Proof.
  intros Hs H. destruct e; simpl in *; try discriminate.
  - injection H as <-. reflexivity.
  - destruct (inflightSearch s !! i); [|discriminate].
    injection H as <-. reflexivity.
  - case_bool_decide; [|discriminate]. injection H as <-.
    unfold loadRepos. destruct (cached (reposMap s) userLogin); reflexivity.
  - case_bool_decide; [|discriminate]. injection H as <-. reflexivity.
Qed.

Lemma run_silent_error (tr : list Event) :
  forallb silent tr = true ->
  forall s s', run tr s = Some s' -> error s' = error s.
Proof.
  induction tr as [|e tr IH]; simpl; intros Hall s s' H.
  - injection H as <-. reflexivity.
  - apply andb_prop in Hall as [He Hall].
    destruct (step e s) as [s1|] eqn:E; [|discriminate].
    rewrite (IH Hall s1 s' H). exact (step_silent_error e s s1 He E).
Qed.

Lemma step_reset_error (e : Event) (s s' : State) :
  isReset e = true -> step e s = Some s' -> error s' = "".
Proof.
  intros Hr H. destruct e; simpl in *; try discriminate.
  - destruct (JS.isFalsy (JS.trim (username s))) eqn:E; [discriminate|].
    injection H as <-. unfold searchUsers.
    rewrite (trim_truthy _ E). reflexivity.
  - destruct (JS.isFalsy (username s)); [discriminate|].
    injection H as <-. reflexivity.
  - injection H as <-. unfold onDebouncedUsername.
    destruct (JS.isFalsy (JS.trim value)) eqn:E; [reflexivity|].
    unfold searchUsers. rewrite (trim_truthy _ E). reflexivity.
Qed.

Lemma step_error_cleared (e : Event) (s s' : State) :
  step e s = Some s' -> error s' = "" -> error s = "" \/ isReset e = true.
Proof.
  intros H Hc. destruct (silent e) eqn:Hs.
  - left. rewrite <- (step_silent_error e s s' Hs H). exact Hc.
  - destruct e; simpl in *; try discriminate; try (right; reflexivity).
    + destruct (inflightSearch s !! i); [|discriminate].
      injection H as <-. discriminate.
    + case_bool_decide; [|discriminate]. injection H as <-. discriminate.
Qed.

(** C9: after a repository fetch has failed, the error field holds "Failed to
    fetch repositories." and still holds it after a later repository fetch,
    for the same or another login, has succeeded: the loader's success path
    leaves the error as it is.  Search errors and repository errors are
    written to the one error field, and only a search that is issued or the
    empty-input reset clears it. *)
Theorem repo_error_outlives_later_success (s : State) :
  let failed := loadRepos_rejected s in
  error failed = "Failed to fetch repositories."
  /\ (forall userLogin data,
        error (loadRepos_resolved userLogin data s) = error s)
  /\ (forall userLogin data,
        error (loadRepos_resolved userLogin data (loadRepos userLogin failed))
        = "Failed to fetch repositories.")
  /\ (forall tr s',
        forallb silent tr = true ->
        run tr failed = Some s' ->
        error s' = "Failed to fetch repositories.")
  /\ error (searchUsers_rejected failed) = "Failed to fetch users."
  /\ (forall e s',
        step e s = Some s' -> error s' = "" ->
        error s = "" \/ isReset e = true)
  /\ (forall e s', isReset e = true -> step e s = Some s' -> error s' = "").
Proof.
  intros failed. subst failed.
  split; [reflexivity|]. split; [reflexivity|]. split; [|split; [|split]].
  - intros userLogin data. unfold loadRepos.
    destruct (cached _ userLogin); reflexivity.
  - intros tr s' Hall H. rewrite (run_silent_error tr Hall _ _ H). reflexivity.
  - reflexivity.
  - split.
    + intros e s'. apply step_error_cleared.
    + intros e s'. apply step_reset_error.
Qed.

Lemma repo_error_outlives_later_success_witness :
  exists s,
    run [ClickUser "testuser2"; ReposResolved "testuser2" []]
      (loadRepos_rejected
         (setUsers [mkUser "testuser1"; mkUser "testuser2"] initialState))
    = Some s
    /\ is_Some (reposMap s !! "testuser2")
    /\ error s = "Failed to fetch repositories.".
Proof.
  match goal with
  | |- exists s, ?r = Some s /\ _ => destruct r as [s|] eqn:E
  end; [|vm_compute in E; discriminate].
  exists s. split; [reflexivity|]. split.
  - pose proof E as E'. vm_compute in E'. injection E' as <-.
    vm_compute. eauto.
  - exact (proj1 (proj2 (proj2 (proj2
             (repo_error_outlives_later_success
                (setUsers [mkUser "testuser1"; mkUser "testuser2"]
                   initialState)))))
             [ClickUser "testuser2"; ReposResolved "testuser2" []]
             s eq_refl E).
Defined.

(** ** Further properties of the application *)

(** *** Blank input *)

Lemma isFalsy_trimStart (s : string) :
  JS.isFalsy (JS.trimStart s) = JS.allWhiteSpace s.
Proof.
  induction s as [|c s IH]; simpl; [reflexivity|].
  destruct (JS.isWhiteSpace c); [exact IH|reflexivity].
Qed.

Lemma allWhiteSpace_trimStart (s : string) :
  JS.allWhiteSpace (JS.trimStart s) = JS.allWhiteSpace s.
Proof.
  induction s as [|c s IH]; simpl; [reflexivity|].
  destruct (JS.isWhiteSpace c) eqn:E; [exact IH|].
  simpl. rewrite E. reflexivity.
Qed.

Lemma allWhiteSpace_rev_app (s acc : string) :
  JS.allWhiteSpace (String.rev_app s acc)
  = JS.allWhiteSpace s && JS.allWhiteSpace acc.
Proof.
  revert acc. induction s as [|c s IH]; intros acc; simpl; [reflexivity|].
  rewrite IH. simpl.
  destruct (JS.isWhiteSpace c), (JS.allWhiteSpace s); reflexivity.
Qed.

Lemma isFalsy_rev_app (s acc : string) :
  JS.isFalsy (String.rev_app s acc) = JS.isFalsy s && JS.isFalsy acc.
Proof.
  revert acc. induction s as [|c s IH]; intros acc; simpl; [reflexivity|].
  rewrite IH. simpl. apply andb_false_r.
Qed.

(** [!s.trim()] holds exactly of the strings that are empty or all white
    space. *)
Lemma isFalsy_trim (s : string) :
  JS.isFalsy (JS.trim s) = JS.allWhiteSpace s.
Proof.
  unfold JS.trim, JS.trimEnd, String.rev.
  rewrite isFalsy_rev_app, andb_true_r, isFalsy_trimStart.
  rewrite allWhiteSpace_rev_app, andb_true_r.
  apply allWhiteSpace_trimStart.
Qed.

(** X1: the Search button can be clicked exactly when the input is not blank
    (not empty and not all white space); the click then issues one request,
    whose query is the input as typed, not trimmed, and turns the loading
    flag on. *)
Theorem search_button_sends_raw_input (now : time) (s : State) :
  (is_Some (step (ClickSearch now) s)
   <-> JS.allWhiteSpace (username s) = false)
  /\ (forall s',
        step (ClickSearch now) s = Some s' ->
        effects s' = (effects s ++ [HttpGet (SearchUsers (username s))])%list
        /\ inflightSearch s' = (inflightSearch s ++ [now])%list
        /\ loadingUser s' = true).
Proof.
  simpl. rewrite isFalsy_trim. split.
  - destruct (JS.allWhiteSpace (username s)); split; intros H;
      try discriminate; eauto.
    destruct H as [? H]. discriminate.
  - intros s'. destruct (JS.allWhiteSpace (username s)) eqn:E;
      [discriminate|].
    intros [= <-]. rewrite <- isFalsy_trim in E.
    unfold searchUsers. rewrite (trim_truthy _ E).
    repeat split; reflexivity.
Qed.

Lemma search_button_sends_raw_input_witness :
  exists s',
    step (ClickSearch 1000%float) (setUsername " octo " initialState) = Some s'
    /\ effects s' = [HttpGet (SearchUsers " octo ")]
    /\ inflightSearch s' = [1000%float]
    /\ loadingUser s' = true.
Proof.
  exists (searchUsers " octo " 1000%float (setUsername " octo " initialState)).
  split; [reflexivity|].
  exact (proj2 (search_button_sends_raw_input 1000%float
                  (setUsername " octo " initialState)) _ eq_refl).
Defined.

(** X2: the effect on the debounced value clears when the value is blank and
    otherwise issues a search for the value as it is, not trimmed: the early
    return of [searchUsers] is never taken from the effect. *)
Theorem effect_searches_iff_not_blank
    (value : string) (now : time) (s : State) :
  onDebouncedUsername value now s
  = if JS.allWhiteSpace value then clearSearch s
    else searchUsers_await value now (searchUsers_prepare s).
Proof.
  unfold onDebouncedUsername. rewrite isFalsy_trim.
  destruct (JS.allWhiteSpace value) eqn:E; [reflexivity|].
  rewrite <- isFalsy_trim in E. unfold searchUsers.
  rewrite (trim_truthy _ E). reflexivity.
Qed.

(** *** URLs *)

Lemma length_append (s1 s2 : string) :
  String.length (s1 +:+ s2) = (String.length s1 + String.length s2)%nat.
Proof.
  induction s1 as [|c s1 IH]; [reflexivity|].
  change (S (String.length (s1 +:+ s2))
          = S (String.length s1 + String.length s2)).
  congruence.
Qed.

Lemma append_inj_l (s1 s2 t : string) : s1 +:+ t = s2 +:+ t -> s1 = s2.
Proof.
  revert s2. induction s1 as [|c s1 IH]; intros [|c2 s2] H.
  - reflexivity.
  - apply (f_equal String.length) in H.
    rewrite !length_append in H. simpl in H. lia.
  - apply (f_equal String.length) in H.
    rewrite !length_append in H. simpl in H. lia.
  - change (String c (s1 +:+ t) = String c2 (s2 +:+ t)) in H.
    injection H as -> H. f_equal. apply IH. exact H.
Qed.

(** X3: a URL determines its request: two searches with the same URL have
    the same query, two repository fetches with the same URL are for the same
    login, and a search URL is never a repository URL. *)
Theorem url_inj (DEV : bool) (r1 r2 : Request) :
  url DEV r1 = url DEV r2 -> r1 = r2.
Proof.
  destruct r1 as [q1|l1], r2 as [q2|l2]; simpl; intros H;
    apply (inj (String.app (baseUrl DEV))) in H.
  - apply (inj (String.app "/search/users?q=")) in H.
    apply append_inj_l in H. congruence.
  - cbv [String.append] in H. discriminate.
  - cbv [String.append] in H. discriminate.
  - apply (inj (String.app "/users/")) in H.
    apply append_inj_l in H. congruence.
Qed.

Lemma url_inj_witness :
  url true (UserRepos "testuser1") = url true (UserRepos "testuser1")
  /\ UserRepos "testuser1" = UserRepos "testuser1".
Proof.
  split; [reflexivity|].
  exact (url_inj true (UserRepos "testuser1") (UserRepos "testuser1") eq_refl).
Defined.

(** X4: in development every request of the component, sent to the local
    prefix and rewritten by the proxy, arrives at the URL that the production
    build requests directly; the rewrite removes one leading "/api" and
    leaves any other path as it is. *)
Theorem dev_proxy_reaches_production_url (r : Request) (path : string) :
  proxied (url true r) = url false r
  /\ rewrite ("/api" +:+ path) = path
  /\ (stripPrefix "/api" path = None -> rewrite path = path).
Proof.
  split; [destruct r; reflexivity|]. split; [reflexivity|].
  intros H. unfold rewrite. rewrite H. reflexivity.
Qed.

Lemma dev_proxy_reaches_production_url_witness :
  proxied "/api/users/testuser1/repos"
  = "https://api.github.com/users/testuser1/repos"
  /\ (stripPrefix "/api" "/favicon.ico" = None
      -> rewrite "/favicon.ico" = "/favicon.ico").
Proof.
  pose proof (dev_proxy_reaches_production_url
                (UserRepos "testuser1") "/favicon.ico") as H.
  split; [exact (proj1 H)|exact (proj2 (proj2 H))].
Defined.

(** *** The loading flags *)

Lemma step_loadingSound (e : Event) (s s' : State) :
  step e s = Some s' -> loadingSound s -> loadingSound s'.
Proof.
  unfold loadingSound. intros H [Hu Hr]. destruct e; simpl in H.
  - injection H as <-. auto.
  - destruct (JS.isFalsy (JS.trim (username s))) eqn:E; [discriminate|].
    injection H as <-. unfold searchUsers. rewrite (trim_truthy _ E). simpl.
    split; [|exact Hr]. intros _ Hnil. apply app_eq_nil in Hnil as [_ [=]].
  - destruct (JS.isFalsy (username s)); [discriminate|].
    injection H as <-. auto.
  - injection H as <-. unfold onDebouncedUsername.
    destruct (JS.isFalsy (JS.trim value)) eqn:E; [auto|].
    unfold searchUsers. rewrite (trim_truthy _ E). simpl.
    split; [|exact Hr]. intros _ Hnil. apply app_eq_nil in Hnil as [_ [=]].
  - destruct (inflightSearch s !! i); [|discriminate].
    injection H as <-. simpl. split; [discriminate|exact Hr].
  - destruct (inflightSearch s !! i); [|discriminate].
    injection H as <-. simpl. split; [discriminate|exact Hr].
  - case_bool_decide; [|discriminate]. injection H as <-.
    unfold loadRepos. destruct (cached (reposMap s) userLogin); [auto|].
    simpl. split; [exact Hu|].
    intros l [= <-]. apply elem_of_app. right. left.
  - case_bool_decide; [|discriminate]. injection H as <-. simpl.
    split; [exact Hu|discriminate].
  - case_bool_decide; [|discriminate]. injection H as <-. simpl.
    split; [exact Hu|discriminate].
Qed.

(** X5: at every reachable state the user skeleton is shown only while a
    search request is in flight, and a login is marked as loading its
    repositories only while a fetch for that login is in flight. *)
Theorem loading_flags_imply_inflight (tr : list Event) (s : State) :
  run tr initialState = Some s ->
  (loadingUser s = true -> inflightSearch s <> [])
  /\ (forall userLogin,
        loadingRepos s = Some userLogin -> userLogin ∈ inflightRepos s).
Proof.
  assert (forall tr s0 s1, run tr s0 = Some s1 ->
                           loadingSound s0 -> loadingSound s1) as Hrun.
  { clear. induction tr as [|e tr IH]; simpl; intros s0 s1 H H0.
    - injection H as <-. exact H0.
    - destruct (step e s0) as [s2|] eqn:E; [|discriminate].
      apply (IH s2 s1 H). exact (step_loadingSound e s0 s2 E H0). }
  intros H. apply (Hrun tr initialState s H).
  split; simpl; discriminate.
Qed.

Lemma loading_flags_imply_inflight_witness :
  exists s,
    run [Typed "octo"; DebouncedChanged "octo" 1000%float;
         SearchResolved 0 (mkSearchData (Some [mkUser "octocat"]) (Some 1%Z))
           1500%float;
         ClickUser "octocat"] initialState = Some s
    /\ loadingRepos s = Some "octocat"
    /\ "octocat" ∈ inflightRepos s.
Proof.
  match goal with
  | |- exists s, ?r = Some s /\ _ => destruct r as [s|] eqn:E
  end; [|vm_compute in E; discriminate].
  exists s.
  assert (loadingRepos s = Some "octocat") as Hl.
  { pose proof E as E'. vm_compute in E'. injection E' as <-. reflexivity. }
  split; [reflexivity|]. split; [exact Hl|].
  exact (proj2 (loading_flags_imply_inflight _ s E) "octocat" Hl).
Defined.

(** X6: the loading flag of the search is turned off when any search request
    settles: with two or more searches in flight, the skeleton disappears when
    the first of them resolves or fails, while another is still in flight. *)
Theorem search_settle_hides_other_pending
    (s : State) (i : nat) (start : time) :
  inflightSearch s !! i = Some start ->
  (2 <= length (inflightSearch s))%nat ->
  (exists s',
     step (SearchRejected i) s = Some s'
     /\ loadingUser s' = false /\ inflightSearch s' <> [])
  /\ (forall data now,
      exists s',
        step (SearchResolved i data now) s = Some s'
        /\ loadingUser s' = false /\ inflightSearch s' <> []).
Proof.
  intros H Hlen.
  assert (delete i (inflightSearch s) <> []) as Hne.
  { intros Hnil. apply (f_equal length) in Hnil.
    rewrite length_delete in Hnil by eauto. simpl in Hnil. lia. }
  split; [|intros data now]; simpl; rewrite H;
    (eexists; split; [reflexivity|]; split; [reflexivity|exact Hne]).
Qed.

Lemma search_settle_hides_other_pending_witness :
  inflightSearch
    (searchUsers "octoc" 1200%float
       (searchUsers "octo" 1000%float initialState)) !! 0%nat
  = Some 1000%float
  /\ exists s',
      step (SearchRejected 0)
        (searchUsers "octoc" 1200%float
           (searchUsers "octo" 1000%float initialState)) = Some s'
      /\ loadingUser s' = false /\ inflightSearch s' <> [].
Proof.
  split; [reflexivity|].
  refine (proj1 (search_settle_hides_other_pending
                   (searchUsers "octoc" 1200%float
                      (searchUsers "octo" 1000%float initialState))
                   0 1000%float eq_refl _)).
  simpl. lia.
Defined.



(** *** The repository list *)

Lemma descriptionText_truthy (repo : Repo) : descriptionText repo <> "".
Proof.
  unfold descriptionText. destruct (description repo) as [[|c d]|]; discriminate.
Qed.

(** X8: while loading, [RepoList] shows the skeleton whatever [repos] is
    (undefined, empty or not); otherwise it shows "No repositories found."
    for an undefined or empty [repos], and for a list of repositories that is
    not empty one card per repository, in the order of the list, with the
    repository's name, link and star count, and no card has an empty
    description: a description that is a non-empty string is shown as it is,
    a missing or empty one as "No description". *)
Theorem repo_list_shows_every_repo
    (anyRepos : option (list Repo)) (repos : list Repo) :
  RepoList anyRepos true = Skeletons 2
  /\ RepoList None false = NoRepositories
  /\ RepoList (Some []) false = NoRepositories
  /\ (repos <> [] ->
      exists cards,
        RepoList (Some repos) false = Cards cards
        /\ map cardName cards = map name repos
        /\ map cardHref cards = map html_url repos
        /\ map cardStars cards = map stargazers_count repos
        /\ Forall (fun card => cardDescription card <> "") cards
        /\ (forall i repo c d,
              repos !! i = Some repo ->
              description repo = Some (String c d) ->
              cardDescription <$> cards !! i = Some (String c d))
        /\ (forall i repo,
              repos !! i = Some repo ->
              description repo = None \/ description repo = Some "" ->
              cardDescription <$> cards !! i = Some "No description")).
Proof.
  split; [reflexivity|]. split; [reflexivity|]. split; [reflexivity|].
  intros Hne.
  exists (map repoCard repos). split; [|split; [|split; [|split; [|split; [|split]]]]].
  - destruct repos; [contradiction|reflexivity].
  - rewrite map_map. reflexivity.
  - rewrite map_map. reflexivity.
  - rewrite map_map. reflexivity.
  - apply Forall_map. apply Forall_forall. intros repo _.
    apply descriptionText_truthy.
  - intros i repo c d Hi Hd. rewrite list_lookup_fmap, Hi. simpl.
    unfold descriptionText. rewrite Hd. reflexivity.
  - intros i repo Hi Hd. rewrite list_lookup_fmap, Hi. simpl.
    unfold descriptionText. destruct Hd as [-> | ->]; reflexivity.
Qed.

(** The test "handles repositories with no description". *)
Lemma repo_list_shows_every_repo_witness :
  [mkRepo 1 "repo1" (Some "Test repository 1") 100 "";
   mkRepo 3 "repo3" None 0 ""] <> []
  /\ RepoList None true = Skeletons 2
  /\ exists cards,
      RepoList (Some [mkRepo 1 "repo1" (Some "Test repository 1") 100 "";
                      mkRepo 3 "repo3" None 0 ""]) false = Cards cards
      /\ map cardName cards = ["repo1"; "repo3"]
      /\ Forall (fun card => cardDescription card <> "") cards.
Proof.
  split; [discriminate|].
  pose proof (repo_list_shows_every_repo None
                [mkRepo 1 "repo1" (Some "Test repository 1") 100 "";
                 mkRepo 3 "repo3" None 0 ""]) as (Hsk & _ & _ & Hcards).
  split; [exact Hsk|].
  destruct (Hcards ltac:(discriminate))
    as (cards & Hview & Hnames & _ & _ & Hdesc & _).
  exists cards. split; [exact Hview|]. split; [exact Hnames|exact Hdesc].
Defined.









(** The cards of the tests' repositories: a [null] description is shown as
    "No description". *)
Example repo_cards_of_mock_repos :
  RepoList (Some [mkRepo 1 "repo1" (Some "Test repository 1") 100 "";
                  mkRepo 3 "repo3" None 0 ""]) false
  = Cards [mkRepoCard "repo1" "" 100 "Test repository 1";
           mkRepoCard "repo3" "" 0 "No description"].
Proof. reflexivity. Qed.


